(** * face2face: the reference-face embedding store

    A shallow embedding of [face2face/core/mixins/_face_embedding.py]
    (class [_FaceEmbedding]): the in-memory dictionary
    [_face_embeddings], the folder of [.npz] files behind it, and the four
    methods [load_face], [load_faces], [load_all_faces] and [add_face].

    Layout: the byte-level serializer, paths and globbing, the store state
    and its exception-and-state monad, the four methods, then the
    properties. *)

From Stdlib Require Import NArith Ascii.
From Stdlib.Strings Require Byte.
From stdpp Require Import gmap strings list fin_maps pretty.

Abbreviation byte := Byte.byte.

(** ** Data model *)

(** One IEEE-754 double, kept as the eight bytes of its little-endian
    representation.  Equality is equality of bit patterns. *)
Inductive float64 : Type :=
  F64 (b0 b1 b2 b3 b4 b5 b6 b7 : byte).

(** A feature vector: the numeric array of one detected face. *)
Definition FeatureVector : Type := list float64.

(** [insightface.app.common.Face], reduced to the feature vector it
    carries. *)
Inductive Face : Type := MkFace (embedding : FeatureVector).

(** Modelled from the spec: the class [FileWriteableFace] of
    [face2face.core.modules.storage.file_writable_face] is missing; it is
    the picklable copy of a [Face], holding the same feature vector. *)
Inductive FileWriteableFace : Type := MkFileWriteableFace (embedding : FeatureVector).

Definition FileWriteableFace_of (face : Face) : FileWriteableFace :=
  match face with MkFace v => MkFileWriteableFace v end.

Definition Face_of (fw : FileWriteableFace) : Face :=
  match fw with MkFileWriteableFace v => MkFace v end.

Definition fw_vector (fw : FileWriteableFace) : FeatureVector :=
  match fw with MkFileWriteableFace v => v end.

(** ** Serializer *)

Module Serializer.

Definition byte_of_N (n : N) : byte :=
  match Byte.of_N n with
  | Some b => b
  | None => Byte.x00
  end.

(** Unsigned LEB128: seven bits per byte, least significant group first,
    the top bit set on every byte but the last. *)
Fixpoint encode_varint_fuel (fuel : nat) (n : N) : list byte :=
  match fuel with
  | O => [byte_of_N (n mod 128)]
  | S fuel' =>
      if (n <? 128)%N then [byte_of_N n]
      else byte_of_N (128 + n mod 128) :: encode_varint_fuel fuel' (n / 128)
  end.

Definition encode_varint (n : N) : list byte :=
  encode_varint_fuel (N.to_nat (N.size n)) n.

Fixpoint decode_varint (bs : list byte) : option (N * list byte) :=
  match bs with
  | [] => None
  | b :: rest =>
      let x := Byte.to_N b in
      if (x <? 128)%N then Some (x, rest)
      else
        match decode_varint rest with
        | Some (hi, rest') => Some ((x - 128) + 128 * hi, rest')%N
        | None => None
        end
  end.

Definition encode_float (x : float64) : list byte :=
  match x with
  | F64 b0 b1 b2 b3 b4 b5 b6 b7 => [b0; b1; b2; b3; b4; b5; b6; b7]
  end.

Definition encode_payload (v : FeatureVector) : list byte :=
  concat (map encode_float v).

(** One vector: its dimensionality, then the raw numeric payload. *)
Definition encode_vector (v : FeatureVector) : list byte :=
  encode_varint (N.of_nat (length v)) ++ encode_payload v.

Fixpoint decode_payload (dim : nat) (bs : list byte)
  : option (FeatureVector * list byte) :=
  match dim with
  | O => Some ([], bs)
  | S dim' =>
      match bs with
      | b0 :: b1 :: b2 :: b3 :: b4 :: b5 :: b6 :: b7 :: rest =>
          match decode_payload dim' rest with
          | Some (xs, rest') => Some (F64 b0 b1 b2 b3 b4 b5 b6 b7 :: xs, rest')
          | None => None
          end
      | _ => None
      end
  end.

Definition decode_vector (bs : list byte) : option (FeatureVector * list byte) :=
  match decode_varint bs with
  | Some (dim, rest) => decode_payload (N.to_nat dim) rest
  | None => None
  end.

Fixpoint decode_vectors (count : nat) (bs : list byte)
  : option (list FileWriteableFace * list byte) :=
  match count with
  | O => Some ([], bs)
  | S count' =>
      match decode_vector bs with
      | Some (v, rest) =>
          match decode_vectors count' rest with
          | Some (vs, rest') => Some (MkFileWriteableFace v :: vs, rest')
          | None => None
          end
      | None => None
      end
  end.

(** Modelled from the spec: the byte format is produced by
    [numpy.save] in [add_face] and read back by the missing
    [load_reference_face_from_file]; the spec describes it as a
    self-describing buffer: vector count, per-vector dimensionality, raw
    numeric payload. *)
Definition encode (faces : list FileWriteableFace) : list byte :=
  encode_varint (N.of_nat (length faces))
    ++ concat (map (fun fw => encode_vector (fw_vector fw)) faces).

(** Modelled from the spec: [decode] is the inverse of [encode]; [None]
    stands for [CorruptDataError] (truncated buffer, a dimensionality that
    does not match the payload, bytes left over). *)
Definition decode (bs : list byte) : option (list FileWriteableFace) :=
  match decode_varint bs with
  | Some (count, rest) =>
      match decode_vectors (N.to_nat count) rest with
      | Some (faces, []) => Some faces
      | _ => None
      end
  | None => None
  end.

End Serializer.

(** ** Paths *)

Fixpoint strip_prefix (pre s : string) : option string :=
  match pre with
  | EmptyString => Some s
  | String c pre' =>
      match s with
      | EmptyString => None
      | String d s' => if Ascii.eqb c d then strip_prefix pre' s' else None
      end
  end.

(** [str.startswith] and [str.endswith]. *)
Definition startswith (s pre : string) : bool :=
  match strip_prefix pre s with Some _ => true | None => false end.

Definition endswith (s suf : string) : bool :=
  startswith (String.rev s) (String.rev suf).

Fixpoint contains_char (c : ascii) (s : string) : bool :=
  match s with
  | EmptyString => false
  | String d s' => Ascii.eqb c d || contains_char c s'
  end.

(** [os.path.join] of [posixpath], for two components: an absolute second
    component discards the first; otherwise the two are glued with exactly
    one separator. *)
Definition path_join (a b : string) : string :=
  if startswith b "/" then b
  else if String.eqb a "" || endswith a "/" then a +:+ b
  else a +:+ "/" +:+ b.

Definition strip_suffix (suf s : string) : option string :=
  option_map String.rev (strip_prefix (String.rev suf) (String.rev s)).

(** Whether [path] matches the pattern [folder + "/*.npz"] in a folder of
    regular files whose name is written without a trailing separator and
    without pattern characters: the star stands for any run of characters
    other than the separator, and does not match a file name that starts
    with a dot.  Used only to run the methods on explicit stores. *)
Definition glob_match_npz (folder path : string) : bool :=
  match strip_prefix (folder +:+ "/") path with
  | Some file =>
      endswith file ".npz"
      && negb (contains_char "/" file)
      && negb (startswith file ".")
  | None => false
  end.

(** ** Python values used as dictionary keys and as list elements *)

Inductive pyval (Obj : Type) : Type :=
| VStr (s : string)
| VInt (n : Z)
| VObj (o : Obj).
Arguments VStr {Obj} s.
Arguments VInt {Obj} n.
Arguments VObj {Obj} o.

#[global] Instance pyval_eq_dec {Obj} `{EqDecision Obj} : EqDecision (pyval Obj).
Proof. solve_decision. Defined.

Definition pyval_to_sum {Obj} (v : pyval Obj) : string + Z + Obj :=
  match v with
  | VStr s => inl (inl s)
  | VInt n => inl (inr n)
  | VObj o => inr o
  end.

Definition pyval_of_sum {Obj} (x : string + Z + Obj) : pyval Obj :=
  match x with
  | inl (inl s) => VStr s
  | inl (inr n) => VInt n
  | inr o => VObj o
  end.

#[global] Instance pyval_countable {Obj} `{Countable Obj} : Countable (pyval Obj).
Proof.
  apply (inj_countable' pyval_to_sum pyval_of_sum).
  intros [s | n | o]; reflexivity.
Defined.

(** Any object a caller may pass where a face name is expected: one that
    can be hashed, and so used as a dictionary key, or one that cannot (an
    instance of a [dict] subclass, for example). *)
Inductive pyobject (Obj Unh : Type) : Type :=
| Hashable (v : pyval Obj)
| Unhashable (u : Unh).
Arguments Hashable {Obj Unh} v.
Arguments Unhashable {Obj Unh} u.

(** ** Exceptions, I/O events and console output *)

Inductive io_event : Type :=
| IoRead (file : string)
| IoGlob (pattern : string)
| IoMakedirs (dir : string)
| IoIsFile (file : string)
| IoOpenWrite (file : string)
| IoWrite (file : string) (data : list byte).

(** The two [ValueError]s of the source are told apart by their message;
    [TypeError] is what a dictionary raises for an unhashable key; the
    other exceptions come from the collaborators. *)
Inductive exn : Type :=
| NotFoundError (face_name : string)
| NoFaceDetectedError (face_name : string)
| CorruptDataError (file : string)
| IOFailure (op : io_event)
| ImageError
| TypeError.

Inductive outcome (A : Type) : Type :=
| Return (a : A)
| Raise (e : exn).
Arguments Return {A} a.
Arguments Raise {A} e.

Inductive notice : Type :=
| OverwriteNotice (face_name : string)
| AddFaceError (e : exn).

(** ** The store *)

Section FaceEmbedding.

(** Non-string objects a caller may pass where a name is expected: they
    are hashable (usable as dictionary keys) and have a string form. *)
Context {Obj : Type} `{Countable Obj}.
Variable obj_str : Obj -> string.

(** Objects that cannot be hashed. *)
Context {Unh : Type}.

(** Collaborators that live outside the mixin. *)
Context {ImageInput Image : Type}.
Variable load_image : ImageInput -> option Image.
Variable detect_faces : Image -> list Face.
Variable encode_path_safe : string -> string.
Variable EMBEDDINGS_DIR : string.

(** [glob.glob]: the paths the operating system lists for a pattern, in
    the order it lists them, given the files there are. *)
Variable glob : string -> gmap string (list byte) -> list string.

(** Which directory creations and file writes the operating system
    refuses. *)
Variable io_fails : io_event -> bool.

(** The instance attributes the mixin uses, together with the part of
    the world it acts on. *)
Record Store : Type := MkStore {
  _face_embeddings : gmap (pyval Obj) (list Face);
  _face_embedding_folder : string;
  files : gmap string (list byte);
  io_trace : list io_event;
  stdout : list notice;
}.

(** A second instance over the same file system, with nothing in RAM. *)
Definition fresh_instance (folder : string) (st : Store) : Store :=
  MkStore ∅ folder (files st) (io_trace st) (stdout st).

(** *** State and exceptions *)

Definition M (A : Type) : Type := Store -> outcome A * Store.

Definition ret {A} (a : A) : M A := fun st => (Return a, st).

Definition raise {A} (e : exn) : M A := fun st => (Raise e, st).

Definition bind {A B} (m : M A) (k : A -> M B) : M B :=
  fun st =>
    match m st with
    | (Return a, st') => k a st'
    | (Raise e, st') => (Raise e, st')
    end.

(** [try: m except Exception as e: h e]. *)
Definition try_except {A} (m : M A) (h : exn -> M A) : M A :=
  fun st =>
    match m st with
    | (Return a, st') => (Return a, st')
    | (Raise e, st') => h e st'
    end.

Notation "x <- m ;; k" := (bind m (fun x => k))
  (at level 100, m at level 99, k at level 200, right associativity).
Notation "m ;;; k" := (bind m (fun _ => k))
  (at level 100, k at level 200, right associativity).

Definition record_io (ev : io_event) : M unit :=
  fun st =>
    (Return tt,
     MkStore (_face_embeddings st) (_face_embedding_folder st)
             (files st) (io_trace st ++ [ev]) (stdout st)).

Definition print (n : notice) : M unit :=
  fun st =>
    (Return tt,
     MkStore (_face_embeddings st) (_face_embedding_folder st)
             (files st) (io_trace st) (stdout st ++ [n])).

(** A dictionary hashes a key before it looks it up or stores under it,
    and raises [TypeError] when the key cannot be hashed. *)
Definition hash_key (face_name : pyobject Obj Unh) : M (pyval Obj) :=
  match face_name with
  | Hashable key => ret key
  | Unhashable _ => raise TypeError
  end.

(** [self._face_embeddings.get(face_name)], the key once hashed *)
Definition embeddings_get (face_name : pyval Obj) : M (option (list Face)) :=
  fun st => (Return (_face_embeddings st !! face_name), st).

(** [self._face_embeddings[face_name] = embedding], the key once hashed *)
Definition embeddings_set (face_name : pyval Obj) (embedding : list Face) : M unit :=
  fun st =>
    (Return tt,
     MkStore (<[face_name := embedding]> (_face_embeddings st))
             (_face_embedding_folder st) (files st) (io_trace st) (stdout st)).

Definition embedding_folder : M string :=
  fun st => (Return (_face_embedding_folder st), st).

(** *** File-system primitives *)

Definition set_file (file : string) (data : list byte) : M unit :=
  fun st =>
    (Return tt,
     MkStore (_face_embeddings st) (_face_embedding_folder st)
             (<[file := data]> (files st)) (io_trace st) (stdout st)).

Definition read_file (file : string) : M (option (list byte)) :=
  record_io (IoRead file) ;;;
  fun st => (Return (files st !! file), st).

(** [glob.glob(folder + "/*.npz")] *)
Definition glob_npz (folder : string) : M (list string) :=
  record_io (IoGlob (folder +:+ "/*.npz")) ;;;
  fun st => (Return (glob (folder +:+ "/*.npz") (files st)), st).

Definition guarded (ev : io_event) : M unit :=
  record_io ev ;;;
  if io_fails ev then raise (IOFailure ev) else ret tt.

(** [os.makedirs(dir, exist_ok=True)]; directories are implicit in the
    path-to-bytes map. *)
Definition makedirs (dir : string) : M unit := guarded (IoMakedirs dir).

(** [os.path.isfile] *)
Definition isfile (file : string) : M bool :=
  record_io (IoIsFile file) ;;;
  fun st => (Return (bool_decide (is_Some (files st !! file))), st).

(** [open(file, "wb")] truncates or creates the file. *)
Definition open_wb (file : string) : M unit :=
  guarded (IoOpenWrite file) ;;; set_file file [].

(** [f.write(data)] on a file just opened with ["wb"]. *)
Definition write (file : string) (data : list byte) : M unit :=
  guarded (IoWrite file data) ;;; set_file file data.

(** The string an f-string renders a value as. *)
Definition py_str (v : pyval Obj) : string :=
  match v with
  | VStr s => s
  | VInt n => pretty n
  | VObj o => obj_str o
  end.

(** Modelled from the spec: [load_reference_face_from_file] of
    [face2face.core.modules.storage.f2f_loader] is missing.  It gives
    [None] when there is no such file, the decoded faces when there is
    one, and [CorruptDataError] when the bytes do not decode.  A read that
    fails for another reason (permissions, a device error) is not
    modelled. *)
Definition load_reference_face_from_file (file : string)
  : M (option (list FileWriteableFace)) :=
  content <- read_file file ;;
  match content with
  | None => ret None
  | Some bs =>
      match Serializer.decode bs with
      | Some faces => ret (Some faces)
      | None => raise (CorruptDataError file)
      end
  end.

(** *** The four methods *)

Definition load_face (face_name : pyobject Obj Unh) : M (list Face) :=
  face_name <- hash_key face_name ;;
  embedding <- embeddings_get face_name ;;
  match embedding with
  | Some embedding => ret embedding
  | None =>
      folder <- embedding_folder ;;
      let file := path_join folder (py_str face_name +:+ ".npz") in
      embedding <- load_reference_face_from_file file ;;
      match embedding with
      | None => raise (NotFoundError (py_str face_name))
      | Some embedding =>
          let embedding := map Face_of embedding in
          embeddings_set face_name embedding ;;;
          ret embedding
      end
  end.

(** The file [load_face] reads for a name that is not in RAM. *)
Definition backing_file (st : Store) (face_name : pyval Obj) : string :=
  path_join (_face_embedding_folder st) (py_str face_name +:+ ".npz").

Fixpoint for_each_load_face (face_names : list string) : M unit :=
  match face_names with
  | [] => ret tt
  | face_name :: rest =>
      load_face (Hashable (VStr face_name)) ;;; for_each_load_face rest
  end.

Definition load_all_faces : M (gmap (pyval Obj) (list Face)) :=
  folder <- embedding_folder ;;
  paths <- glob_npz folder ;;
  for_each_load_face paths ;;;
  fun st => (Return (_face_embeddings st), st).

(** The three shapes [face_names] may have. *)
Inductive face_names_arg : Type :=
| NoNames
| OneName (s : string)
| ManyNames (l : list (pyobject Obj Unh)).

(** [face if isinstance(face, str) else i] *)
Definition result_key (i : nat) (face : pyobject Obj Unh) : pyval Obj :=
  match face with
  | Hashable (VStr s) => VStr s
  | _ => VInt (Z.of_nat i)
  end.

(** The keys the comprehension assigns, counting from [i]. *)
Definition result_keys (i : nat) (face_names : list (pyobject Obj Unh))
  : list (pyval Obj) :=
  imap (fun j face => result_key (i + j) face) face_names.

(** The dictionary comprehension over [enumerate(face_names)]: entries
    are added in order, a later entry replacing an earlier one with the
    same key. *)
Fixpoint load_faces_comprehension (i : nat) (face_names : list (pyobject Obj Unh))
    (acc : gmap (pyval Obj) (list Face)) : M (gmap (pyval Obj) (list Face)) :=
  match face_names with
  | [] => ret acc
  | face :: rest =>
      embedding <- load_face face ;;
      load_faces_comprehension (S i) rest (<[result_key i face := embedding]> acc)
  end.

Definition load_faces (face_names : face_names_arg)
  : M (gmap (pyval Obj) (list Face)) :=
  match face_names with
  | NoNames => load_all_faces
  | OneName s =>
      embedding <- load_face (Hashable (VStr s)) ;;
      ret {[ VStr s := embedding ]}
  | ManyNames l => load_faces_comprehension 0 l ∅
  end.

(** The file [add_face] writes for a name, and the bytes it writes. *)
Definition saved_file (face_name : string) : string :=
  path_join EMBEDDINGS_DIR (encode_path_safe face_name +:+ ".npz").

Definition saved_bytes (faces : list Face) : list byte :=
  Serializer.encode (map FileWriteableFace_of faces).

Definition add_face (face_name : string) (image : ImageInput) (save : bool)
  : M (string * list byte) :=
  try_except
    (match load_image image with
     | None => raise ImageError
     | Some image =>
         let face_name := encode_path_safe face_name in
         let detected_faces := detect_faces image in
         match detected_faces with
         | [] => raise (NoFaceDetectedError face_name)
         | _ :: _ =>
             embeddings_set (VStr face_name) detected_faces ;;;
             let save_able_ref_faces := map FileWriteableFace_of detected_faces in
             let virtual_file := Serializer.encode save_able_ref_faces in
             (if save then
                makedirs EMBEDDINGS_DIR ;;;
                let filename := path_join EMBEDDINGS_DIR (face_name +:+ ".npz") in
                existing <- isfile filename ;;
                (if existing then print (OverwriteNotice face_name) else ret tt) ;;;
                open_wb filename ;;;
                write filename virtual_file
              else ret tt) ;;;
             ret (face_name, virtual_file)
         end
     end)
    (fun e => print (AddFaceError e) ;;; raise e).

End FaceEmbedding.

(** ** A concrete setting

    Instances of the collaborators and a few stores, used to run the
    methods on explicit inputs. *)

Module Demo.

Definition lower (c : ascii) : ascii :=
  let n := nat_of_ascii c in
  if (65 <=? n)%nat && (n <=? 90)%nat then ascii_of_nat (n + 32) else c.

(** A path-safe encoder in the manner of [encode_path_safe]: letters are
    lower-cased and spaces become hyphens. *)
Fixpoint slug (s : string) : string :=
  match s with
  | EmptyString => EmptyString
  | String c s' =>
      String (if Ascii.eqb c " " then "-"%char else lower c) (slug s')
  end.

(** Hashable objects other than strings: one kind, printed as below. *)
Definition obj_str (o : unit) : string := "<object>".

(** What [glob.glob] lists in a folder of regular files, the folder written
    without a trailing separator. *)
Definition flat_glob (pattern : string) (fs : gmap string (list byte)) : list string :=
  match strip_suffix "/*.npz" pattern with
  | Some folder =>
      filter (fun p => glob_match_npz folder p = true) (map fst (map_to_list fs))
  | None => []
  end.

(** An image is given by the faces there are to detect in it. *)
Definition load_image (image : list Face) : option (list Face) := Some image.
Definition detect_faces (image : list Face) : list Face := image.

Definition EMBEDDINGS_DIR : string := "/embeddings".

Definition io_never_fails (ev : io_event) : bool := false.

(** A folder in which no file can be opened for writing. *)
Definition io_read_only (ev : io_event) : bool :=
  match ev with
  | IoOpenWrite _ => true
  | _ => false
  end.

Definition one : float64 :=
  F64 Byte.x00 Byte.x00 Byte.x00 Byte.x00 Byte.x00 Byte.x00 Byte.xf0 Byte.x3f.
Definition two : float64 :=
  F64 Byte.x00 Byte.x00 Byte.x00 Byte.x00 Byte.x00 Byte.x00 Byte.x00 Byte.x40.

Definition facesA : list Face := [MkFace [one; two]].
Definition facesB : list Face := [MkFace [two; two]; MkFace [one; one]].

Definition empty_store : @Store unit _ _ :=
  MkStore ∅ EMBEDDINGS_DIR ∅ [] [].

(** The folder holds the records of [A] and [B]; nothing is in RAM. *)
Definition store_AB : @Store unit _ _ :=
  MkStore ∅ EMBEDDINGS_DIR
    (<["/embeddings/B.npz" := saved_bytes facesB]>
       (<["/embeddings/A.npz" := saved_bytes facesA]> ∅))
    [] [].

(** [A] is in RAM and the folder is empty. *)
Definition store_cached : @Store unit _ _ :=
  MkStore (<[VStr "A" := facesA]> ∅) EMBEDDINGS_DIR ∅ [] [].

Definition add_face_demo :=
  add_face (Obj := unit) load_image detect_faces slug EMBEDDINGS_DIR io_never_fails.

Definition add_face_read_only :=
  add_face (Obj := unit) load_image detect_faces slug EMBEDDINGS_DIR io_read_only.

(** The dictionary a run returned, empty when it raised. *)
Definition returned {A} (run : outcome (gmap (pyval unit) A) * @Store unit _ _)
  : gmap (pyval unit) A :=
  match fst run with
  | Return d => d
  | Raise _ => ∅
  end.


(** A [Face] object passed where a name is expected; it cannot be hashed. *)
Definition a_face : Face := MkFace [one].

(** The folder holds one file, which is not a record. *)
Definition store_other : @Store unit _ _ :=
  MkStore ∅ EMBEDDINGS_DIR (<["/embeddings/readme.txt" := []]> ∅) [] [].

End Demo.

(** * Properties *)

(** ** The serializer round trip *)

Module SerializerFacts.
Import Serializer.

Lemma to_N_byte_of_N (n : N) : (n < 256)%N -> Byte.to_N (byte_of_N n) = n.
Proof.
  intros Hn. unfold byte_of_N.
  pose proof (Byte.to_of_N_option_map n) as Hmap.
  destruct (Byte.of_N n) as [b|]; simpl in Hmap.
  - destruct (N.leb_spec n 255%N); [congruence | lia].
  - destruct (N.leb_spec n 255%N); [discriminate | lia].
Qed.

Lemma decode_encode_varint_fuel (fuel : nat) :
  forall (n : N) (rest : list byte),
    (n < 2 ^ N.of_nat fuel)%N ->
    decode_varint (encode_varint_fuel fuel n ++ rest) = Some (n, rest).
Proof.
  induction fuel as [|fuel IH]; intros n rest Hn.
  - change (N.of_nat 0) with 0%N in Hn. rewrite N.pow_0_r in Hn.
    assert (n = 0%N) as -> by lia. reflexivity.
  - cbn [encode_varint_fuel].
    destruct (N.ltb_spec n 128%N) as [Hlt|Hge].
    + cbn [app decode_varint]. rewrite to_N_byte_of_N by lia.
      destruct (N.ltb_spec n 128%N); [reflexivity | lia].
    + pose proof (N.mod_upper_bound n 128%N ltac:(lia)) as Hmod.
      pose proof (N.div_mod n 128%N ltac:(lia)) as Hdm.
      replace (N.of_nat (S fuel)) with (N.succ (N.of_nat fuel)) in Hn by lia.
      rewrite N.pow_succ_r' in Hn.
      set (q := (n / 128)%N) in *. set (r := (n mod 128)%N) in *.
      set (p := (2 ^ N.of_nat fuel)%N) in *. clearbody q r p.
      cbn [app decode_varint]. rewrite to_N_byte_of_N by lia.
      destruct (N.ltb_spec (128 + r)%N 128%N); [lia|].
      rewrite IH by lia.
      f_equal. f_equal. lia.
Qed.

Lemma decode_encode_varint (n : N) (rest : list byte) :
  decode_varint (encode_varint n ++ rest) = Some (n, rest).
Proof.
  apply decode_encode_varint_fuel.
  rewrite N2Nat.id. apply N.size_gt.
Qed.

Lemma decode_encode_payload (v : FeatureVector) (rest : list byte) :
  decode_payload (length v) (encode_payload v ++ rest) = Some (v, rest).
Proof.
  induction v as [|[b0 b1 b2 b3 b4 b5 b6 b7] v IH]; [reflexivity|].
  unfold encode_payload in *. cbn [map concat length encode_float app decode_payload].
  now rewrite IH.
Qed.

Lemma decode_encode_vector (v : FeatureVector) (rest : list byte) :
  decode_vector (encode_vector v ++ rest) = Some (v, rest).
Proof.
  unfold decode_vector, encode_vector.
  rewrite <- app_assoc, decode_encode_varint, Nat2N.id.
  apply decode_encode_payload.
Qed.

Lemma decode_encode_vectors (faces : list FileWriteableFace) (rest : list byte) :
  decode_vectors (length faces)
    (concat (map (fun fw => encode_vector (fw_vector fw)) faces) ++ rest)
  = Some (faces, rest).
Proof.
  induction faces as [|[v] faces IH]; [reflexivity|].
  cbn [map concat length decode_vectors fw_vector].
  now rewrite <- app_assoc, decode_encode_vector, IH.
Qed.

Lemma decode_encode (faces : list FileWriteableFace) :
  decode (encode faces) = Some faces.
Proof.
  unfold decode, encode.
  rewrite decode_encode_varint, Nat2N.id.
  rewrite <- (app_nil_r (concat _)).
  now rewrite decode_encode_vectors.
Qed.

(** C8. For every sequence of feature vectors, the empty one included,
    decoding the encoded buffer gives the sequence back: [decode] is the
    inverse of [encode].  Vectors are compared bit for bit, which is
    within every floating-point tolerance. *)
Theorem decode_encode_round_trip :
  forall faces : list FileWriteableFace,
    decode (encode faces) = Some faces
    /\ decode (encode []) = Some [].
Proof.
  intros faces. split; apply decode_encode.
Qed.

End SerializerFacts.

(** ** The methods of the store *)

Lemma Face_of_FileWriteableFace_of (faces : list Face) :
  map Face_of (map FileWriteableFace_of faces) = faces.
Proof.
  induction faces as [|[v] faces IH]; [reflexivity|].
  cbn [map Face_of FileWriteableFace_of]. now rewrite IH.
Qed.

Section FaceEmbeddingFacts.

Context {Obj : Type} `{Countable Obj}.
Variable obj_str : Obj -> string.
Context {Unh : Type}.
Context {ImageInput Image : Type}.
Variable load_image : ImageInput -> option Image.
Variable detect_faces : Image -> list Face.
Variable encode_path_safe : string -> string.
Variable EMBEDDINGS_DIR : string.
Variable glob : string -> gmap string (list byte) -> list string.
Variable io_fails : io_event -> bool.

Ltac unfold_monad :=
  unfold load_reference_face_from_file, read_file, glob_npz, isfile,
    open_wb, write, makedirs, guarded, set_file, record_io, print,
    hash_key, embeddings_get, embeddings_set, embedding_folder, try_except,
    bind, ret, raise in *;
  cbn [_face_embeddings _face_embedding_folder files io_trace stdout
       fst snd] in *.

Ltac unfold_method :=
  unfold load_face, load_all_faces, load_faces, add_face in *.

Abbreviation Store := (@Store Obj _ _).
Abbreviation pyobject := (pyobject Obj Unh).
Abbreviation load_face := (load_face (Unh := Unh) obj_str).
Abbreviation load_all_faces := (load_all_faces (Unh := Unh) obj_str glob).
Abbreviation load_faces := (load_faces (Unh := Unh) obj_str glob).
Abbreviation load_faces_comprehension :=
  (load_faces_comprehension (Unh := Unh) obj_str).
Abbreviation for_each_load_face := (for_each_load_face (Unh := Unh) obj_str).
Abbreviation add_face :=
  (add_face load_image detect_faces encode_path_safe EMBEDDINGS_DIR io_fails).
Abbreviation py_str := (py_str obj_str).
Abbreviation backing_file := (backing_file obj_str).
Abbreviation saved_file := (saved_file encode_path_safe EMBEDDINGS_DIR).

(** *** [load_face] *)

Lemma load_face_hit (st : Store) (face_name : pyval Obj) (embedding : list Face) :
  _face_embeddings st !! face_name = Some embedding ->
  load_face (Hashable face_name) st = (Return embedding, st).
Proof.
  intros Hmem. unfold_method. unfold_monad. now rewrite Hmem.
Qed.

(** An object that cannot be hashed stops [load_face] at the dictionary
    lookup, before anything is read or stored. *)
Lemma load_face_unhashable (st : Store) (u : Unh) :
  load_face (Unhashable u) st = (Raise TypeError, st).
Proof. reflexivity. Qed.

(** What a miss does, case by case on the backing file. *)
Lemma load_face_miss (st : Store) (face_name : pyval Obj) :
  _face_embeddings st !! face_name = None ->
  let file := backing_file st face_name in
  let trace := io_trace st ++ [IoRead file] in
  load_face (Hashable face_name) st =
    match files st !! file with
    | None =>
        (Raise (NotFoundError (py_str face_name)),
         MkStore (_face_embeddings st) (_face_embedding_folder st)
                 (files st) trace (stdout st))
    | Some bs =>
        match Serializer.decode bs with
        | None =>
            (Raise (CorruptDataError file),
             MkStore (_face_embeddings st) (_face_embedding_folder st)
                     (files st) trace (stdout st))
        | Some faces =>
            (Return (map Face_of faces),
             MkStore (<[face_name := map Face_of faces]> (_face_embeddings st))
                     (_face_embedding_folder st) (files st) trace (stdout st))
        end
    end.
Proof.
  intros Hmem. unfold backing_file. unfold_method. unfold_monad.
  rewrite Hmem.
  destruct (files st !! _) as [bs|]; [|reflexivity].
  destruct (Serializer.decode bs); reflexivity.
Qed.

(** [load_face] never touches the files or the folder, never drops or
    changes an entry held in RAM, and on success leaves the name in RAM. *)
Lemma load_face_frame (st : Store) (face_name : pyobject) :
  forall r st', load_face face_name st = (r, st') ->
    files st' = files st
    /\ _face_embedding_folder st' = _face_embedding_folder st
    /\ (forall k v, _face_embeddings st !! k = Some v ->
                    _face_embeddings st' !! k = Some v)
    /\ (forall v, r = Return v ->
          exists key, face_name = Hashable key
                      /\ _face_embeddings st' !! key = Some v).
Proof.
  intros r st' Hrun. destruct face_name as [face_name|u].
  2: { rewrite load_face_unhashable in Hrun. inversion Hrun; subst.
       repeat split; auto. discriminate. }
  destruct (_face_embeddings st !! face_name) as [embedding|] eqn:Hmem.
  - rewrite (load_face_hit _ _ _ Hmem) in Hrun. inversion Hrun; subst.
    repeat split; auto. intros v [= <-]. eauto.
  - rewrite (load_face_miss _ _ Hmem) in Hrun. cbn zeta in Hrun.
    destruct (files st !! _) as [bs|];
      [destruct (Serializer.decode bs) as [faces|]|];
      inversion Hrun; subst; cbn; repeat split; auto; try discriminate.
    + intros k v Hk. destruct (decide (face_name = k)) as [->|Hne].
      * congruence.
      * now rewrite lookup_insert_ne.
    + intros v [= <-]. exists face_name. split; [reflexivity|].
      apply lookup_insert_eq.
Qed.

(** C5. A name held in RAM is answered from RAM: [load_face] returns the
    cached faces and leaves the whole state as it was, the I/O trace
    included, so nothing is read from the folder.  Hence once a call has
    returned, a second call for the same name returns the same faces and
    performs no I/O at all. *)
Theorem load_face_cache_hit_no_io :
  forall (st : Store) (face_name : pyval Obj),
    (forall embedding,
        _face_embeddings st !! face_name = Some embedding ->
        load_face (Hashable face_name) st = (Return embedding, st))
    /\ (forall embedding st1,
        load_face (Hashable face_name) st = (Return embedding, st1) ->
        load_face (Hashable face_name) st1 = (Return embedding, st1)
        /\ io_trace (snd (load_face (Hashable face_name) st1)) = io_trace st1
        /\ files (snd (load_face (Hashable face_name) st1)) = files st1).
Proof.
  intros st face_name. split.
  - intros embedding. apply load_face_hit.
  - intros embedding st1 Hrun.
    destruct (load_face_frame _ _ _ _ Hrun) as (_ & _ & _ & Hin).
    destruct (Hin embedding eq_refl) as (key & [= <-] & Hkey).
    rewrite (load_face_hit st1 face_name embedding) by exact Hkey.
    auto.
Qed.

(** C3. A name that is neither in RAM nor backed by a file makes
    [load_face] raise the not-found error; no faces, empty or otherwise,
    are returned, and RAM and files stay as they were. *)
Theorem load_face_missing_raises :
  forall (st : Store) (face_name : pyval Obj),
    _face_embeddings st !! face_name = None ->
    files st !! backing_file st face_name = None ->
    fst (load_face (Hashable face_name) st)
      = Raise (NotFoundError (py_str face_name))
    /\ _face_embeddings (snd (load_face (Hashable face_name) st))
       = _face_embeddings st
    /\ files (snd (load_face (Hashable face_name) st)) = files st.
Proof.
  intros st face_name Hmem Hfile.
  rewrite (load_face_miss _ _ Hmem). cbn zeta. rewrite Hfile. auto.
Qed.


(** *** The batch loaders *)

Lemma for_each_load_face_cons (face_name : string) (rest : list string) (st : Store) :
  for_each_load_face (face_name :: rest) st =
    match load_face (Hashable (VStr face_name)) st with
    | (Return _, st1) => for_each_load_face rest st1
    | (Raise e, st1) => (Raise e, st1)
    end.
Proof. reflexivity. Qed.

Lemma load_faces_comprehension_cons (i : nat) (face : pyobject)
    (rest : list pyobject) (acc : gmap (pyval Obj) (list Face)) (st : Store) :
  load_faces_comprehension i (face :: rest) acc st =
    match load_face face st with
    | (Return embedding, st1) =>
        load_faces_comprehension (S i) rest (<[result_key i face := embedding]> acc) st1
    | (Raise e, st1) => (Raise e, st1)
    end.
Proof. reflexivity. Qed.

(** The loop of [load_all_faces] stops at the first path that is neither a
    key of the dictionary nor the stem of a file. *)
Lemma for_each_load_face_head_missing (face_name : string) (rest : list string)
    (st : Store) :
  _face_embeddings st !! VStr face_name = None ->
  files st !! backing_file st (VStr face_name) = None ->
  fst (for_each_load_face (face_name :: rest) st) = Raise (NotFoundError face_name).
Proof.
  intros Hmem Hfile. rewrite for_each_load_face_cons.
  rewrite (load_face_miss _ _ Hmem). cbn zeta. now rewrite Hfile.
Qed.

Lemma for_each_load_face_frame (face_names : list string) :
  forall (st : Store) r st',
    for_each_load_face face_names st = (r, st') ->
    files st' = files st
    /\ _face_embedding_folder st' = _face_embedding_folder st.
Proof.
  induction face_names as [|face_name rest IH]; intros st r st' Hrun.
  - inversion Hrun; subst. auto.
  - rewrite for_each_load_face_cons in Hrun.
    destruct (load_face (Hashable (VStr face_name)) st) as [[a|e] st1] eqn:Hhead;
      destruct (load_face_frame _ _ _ _ Hhead) as (Hf & Hd & _).
    + destruct (IH _ _ _ Hrun) as [Hf' Hd']. split; congruence.
    + inversion Hrun; subst. auto.
Qed.

Lemma load_all_faces_frame (st : Store) :
  forall r st', load_all_faces st = (r, st') -> files st' = files st.
Proof.
  intros r st'. unfold_method. unfold_monad.
  destruct (for_each_load_face _ _) as [[[]|e] st1] eqn:Hloop;
    intros [= <- <-];
    now destruct (for_each_load_face_frame _ _ _ _ Hloop) as [-> _].
Qed.

Lemma load_faces_comprehension_frame (face_names : list pyobject) :
  forall i acc (st : Store) r st',
    load_faces_comprehension i face_names acc st = (r, st') ->
    files st' = files st
    /\ (forall k v, _face_embeddings st !! k = Some v ->
                    _face_embeddings st' !! k = Some v).
Proof.
  induction face_names as [|face rest IH]; intros i acc st r st' Hrun.
  - inversion Hrun; subst. auto.
  - rewrite load_faces_comprehension_cons in Hrun.
    destruct (load_face face st) as [[embedding|e] st1] eqn:Hhead;
      destruct (load_face_frame _ _ _ _ Hhead) as (Hf & _ & Hmono & _).
    + destruct (IH _ _ _ _ _ Hrun) as [Hf' Hmono']. split; [congruence | auto].
    + inversion Hrun; subst. auto.
Qed.

Lemma load_faces_one (s : string) (st : Store) :
  load_faces (OneName s) st =
    match load_face (Hashable (VStr s)) st with
    | (Return embedding, st1) => (Return {[ VStr s := embedding ]}, st1)
    | (Raise e, st1) => (Raise e, st1)
    end.
Proof. reflexivity. Qed.

Lemma load_faces_frame (face_names : face_names_arg) (st : Store) :
  forall r st', load_faces face_names st = (r, st') -> files st' = files st.
Proof.
  intros r st' Hrun. destruct face_names as [|s|l].
  - now apply load_all_faces_frame with (r := r).
  - rewrite load_faces_one in Hrun.
    destruct (load_face (Hashable (VStr s)) st) as [[embedding|e] st1] eqn:Hhead;
      destruct (load_face_frame _ _ _ _ Hhead) as (Hf & _);
      inversion Hrun; subst; exact Hf.
  - now destruct (load_faces_comprehension_frame _ _ _ _ _ _ Hrun).
Qed.

(** C10. The load operations only read the folder: after [load_face],
    [load_faces] (in each of its three shapes) and [load_all_faces],
    whether they return or raise, the set of files and the bytes of each
    file are what they were before. *)
Theorem load_operations_preserve_files :
  forall (st : Store),
    (forall face_name, files (snd (load_face face_name st)) = files st)
    /\ (forall face_names, files (snd (load_faces face_names st)) = files st)
    /\ files (snd (load_all_faces st)) = files st.
Proof.
  intros st. repeat split.
  - intros face_name.
    destruct (load_face face_name st) as [r st'] eqn:Hrun.
    now destruct (load_face_frame _ _ _ _ Hrun).
  - intros face_names.
    destruct (load_faces face_names st) as [r st'] eqn:Hrun.
    exact (load_faces_frame _ _ _ _ Hrun).
  - destruct (load_all_faces st) as [r st'] eqn:Hrun.
    exact (load_all_faces_frame _ _ _ Hrun).
Qed.

(** *** The dictionary built by [load_faces] *)

Lemma result_key_inj (i j : nat) (f g : pyobject) :
  result_key i f = result_key j g -> i <> j -> f = g.
Proof.
  intros Hkey Hne.
  destruct f as [[]|], g as [[]|]; cbn in Hkey; try congruence;
    injection Hkey; lia.
Qed.

Lemma result_key_string (i : nat) (s : string) :
  result_key (Unh := Unh) i (Hashable (VStr s)) = VStr (Obj := Obj) s.
Proof. reflexivity. Qed.


Lemma elem_of_result_keys (k : pyval Obj) (i : nat) (face_names : list pyobject) :
  k ∈ result_keys i face_names <->
  exists j face, face_names !! j = Some face /\ k = result_key (i + j) face.
Proof.
  unfold result_keys. rewrite elem_of_lookup_imap. split.
  - intros (j & face & -> & Hj). eauto.
  - intros (j & face & Hj & ->). eauto.
Qed.

Lemma load_faces_comprehension_return (face_names : list pyobject) :
  forall i acc (st : Store) d st',
    load_faces_comprehension i face_names acc st = (Return d, st') ->
    (forall j face, face_names !! j = Some face ->
       exists key v, face = Hashable key
                     /\ _face_embeddings st' !! key = Some v
                     /\ d !! result_key (i + j) face = Some v)
    /\ (forall k, k ∉ result_keys i face_names -> d !! k = acc !! k).
Proof.
  induction face_names as [|face rest IH]; intros i acc st d st' Hrun.
  - inversion Hrun; subst. split; [intros j face [=] | auto].
  - rewrite load_faces_comprehension_cons in Hrun.
    destruct (load_face face st) as [[v|e] st1] eqn:Hhead; [|discriminate].
    destruct (load_face_frame _ _ _ _ Hhead) as (_ & _ & _ & Hin).
    destruct (Hin v eq_refl) as (key & -> & Hkey). clear Hin.
    destruct (load_faces_comprehension_frame _ _ _ _ _ _ Hrun) as [_ Hmono].
    destruct (IH _ _ _ _ _ Hrun) as [Hentries Hother].
    split.
    + intros [|j] face' Hj; cbn in Hj.
      * injection Hj as <-. exists key, v.
        split; [reflexivity|]. split; [now apply Hmono|].
        destruct (decide (result_key (i + 0) (Hashable key : pyobject)
                           ∈ result_keys (S i) rest))
          as [Hlater|Hfresh].
        -- apply elem_of_result_keys in Hlater as (j & face' & Hj & Hsame).
           assert (Hashable key = face') as <-
             by (eapply result_key_inj; [exact Hsame | lia]).
           destruct (Hentries _ _ Hj) as (key' & v' & [= <-] & Hv' & Hd).
           rewrite Hsame, Hd. rewrite (Hmono _ _ Hkey) in Hv'. congruence.
        -- rewrite (Hother _ Hfresh). rewrite Nat.add_0_r. apply lookup_insert_eq.
      * replace (i + S j) with (S i + j) by lia. now apply Hentries.
    + intros k Hk.
      assert (k <> result_key i (Hashable key : pyobject)) as Hne.
      { intros ->. apply Hk, elem_of_result_keys.
        exists 0, (Hashable key). now rewrite Nat.add_0_r. }
      rewrite Hother.
      * now rewrite lookup_insert_ne.
      * intros (j & face' & Hj & ->)%elem_of_result_keys.
        apply Hk, elem_of_result_keys. exists (S j), face'.
        split; [exact Hj | f_equal; lia].
Qed.

Lemma load_faces_comprehension_app (pre post : list pyobject) :
  forall i acc (st : Store),
    load_faces_comprehension i (pre ++ post) acc st =
      match load_faces_comprehension i pre acc st with
      | (Return d, st1) => load_faces_comprehension (i + length pre) post d st1
      | (Raise e, st1) => (Raise e, st1)
      end.
Proof.
  induction pre as [|face pre IH]; intros i acc st.
  - cbn [app length]. rewrite Nat.add_0_r. reflexivity.
  - cbn [app length]. rewrite !load_faces_comprehension_cons.
    destruct (load_face face st) as [[v|e] st1]; [|reflexivity].
    rewrite IH. now replace (S i + length pre) with (i + S (length pre)) by lia.
Qed.




(** *** [add_face] *)

(** What a returning [add_face] has done. *)
Lemma add_face_return_inv (st : Store) (face_name : string) (image : ImageInput)
    (save : bool) (r : string * list byte) (st1 : Store) :
  add_face face_name image save st = (Return r, st1) ->
  exists im,
    load_image image = Some im
    /\ detect_faces im <> []
    /\ r = (encode_path_safe face_name, saved_bytes (detect_faces im))
    /\ _face_embeddings st1 =
         <[VStr (encode_path_safe face_name) := detect_faces im]> (_face_embeddings st)
    /\ _face_embedding_folder st1 = _face_embedding_folder st
    /\ files st1 =
         (if save
          then <[saved_file face_name := saved_bytes (detect_faces im)]> (files st)
          else files st).
Proof.
  unfold saved_file, saved_bytes. unfold_method. unfold_monad.
  destruct (load_image image) as [im|]; [|discriminate].
  destruct (detect_faces im) as [|f fs] eqn:Hdet; [discriminate|].
  intros Hrun. exists im. rewrite Hdet.
  destruct save.
  - destruct (io_fails (IoMakedirs _)); [discriminate|].
    destruct (bool_decide _);
      cbn [_face_embeddings _face_embedding_folder files io_trace stdout] in Hrun;
      (destruct (io_fails (IoOpenWrite _)); [discriminate|]);
      cbn [_face_embeddings _face_embedding_folder files io_trace stdout] in Hrun;
      (destruct (io_fails (IoWrite _ _)); [discriminate|]);
      injection Hrun as <- <-; cbn;
      rewrite insert_insert_eq; repeat split; auto; discriminate.
  - injection Hrun as <- <-. cbn. repeat split; auto; discriminate.
Qed.

(** C4. When no face is detected in the image, [add_face] raises the
    no-face error (whatever [save] is), and the dictionary in RAM, every
    file of the folder and the I/O trace are exactly what they were: a
    previous entry or file for the name is left alone. *)
Theorem add_face_no_face_rejected :
  forall (st : Store) (face_name : string) (image : ImageInput) (im : Image)
         (save : bool),
    load_image image = Some im ->
    detect_faces im = [] ->
    fst (add_face face_name image save st)
      = Raise (NoFaceDetectedError (encode_path_safe face_name))
    /\ _face_embeddings (snd (add_face face_name image save st)) = _face_embeddings st
    /\ files (snd (add_face face_name image save st)) = files st
    /\ io_trace (snd (add_face face_name image save st)) = io_trace st.
Proof.
  intros st face_name image im save Hload Hdet.
  unfold_method. unfold_monad. rewrite Hload, Hdet. cbn. auto.
Qed.

(** C9. [add_face] with [save] puts the detected faces in RAM before it
    touches the disk: when creating the directory, opening the file or
    writing it fails, the I/O error reaches the caller and the dictionary
    nevertheless holds the new faces under the path-safe name. *)
Theorem add_face_keeps_entry_on_io_failure :
  forall (st : Store) (face_name : string) (image : ImageInput) (im : Image)
         (faces : list Face),
    load_image image = Some im ->
    detect_faces im = faces ->
    faces <> [] ->
    io_fails (IoMakedirs EMBEDDINGS_DIR) = true
    \/ io_fails (IoOpenWrite (saved_file face_name)) = true
    \/ io_fails (IoWrite (saved_file face_name) (saved_bytes faces)) = true ->
    (exists op, fst (add_face face_name image true st) = Raise (IOFailure op))
    /\ _face_embeddings (snd (add_face face_name image true st))
         !! VStr (encode_path_safe face_name) = Some faces.
Proof.
  intros st face_name image im faces Hload Hdet Hne Hfail.
  unfold saved_file, saved_bytes in Hfail.
  unfold_method. unfold_monad. rewrite Hload, Hdet.
  destruct faces as [|f fs]; [congruence|].
  destruct (io_fails (IoMakedirs _)) eqn:Hmk.
  { cbn. split; [eauto | apply lookup_insert_eq]. }
  destruct (bool_decide _);
    cbn [_face_embeddings _face_embedding_folder files io_trace stdout];
    (destruct (io_fails (IoOpenWrite _)) eqn:Hopen;
     [cbn; split; [eauto | apply lookup_insert_eq]|]);
    cbn [_face_embeddings _face_embedding_folder files io_trace stdout];
    (destruct (io_fails (IoWrite _ _)) eqn:Hwrite;
     [cbn; split; [eauto | apply lookup_insert_eq]|]);
    destruct Hfail as [?|[?|?]]; congruence.
Qed.

(** C1, amended.  After [add_face] with [save] has returned, the faces
    it detected are found under the path-safe name it returned: the same
    instance answers [load_face] for that name from RAM, without I/O, and
    a new instance whose folder is the directory [add_face] writes to
    answers it from the file, with the same faces. *)
Theorem add_face_then_load_face :
  forall (st : Store) (face_name : string) (image : ImageInput) (im : Image)
         (faces : list Face) (r : string * list byte) (st1 : Store),
    load_image image = Some im ->
    detect_faces im = faces ->
    add_face face_name image true st = (Return r, st1) ->
    fst r = encode_path_safe face_name
    /\ load_face (Hashable (VStr (fst r))) st1 = (Return faces, st1)
    /\ fst (load_face (Hashable (VStr (fst r))) (fresh_instance EMBEDDINGS_DIR st1))
       = Return faces
    /\ io_trace (snd (load_face (Hashable (VStr (fst r))) (fresh_instance EMBEDDINGS_DIR st1)))
       = io_trace st1 ++ [IoRead (saved_file face_name)].
Proof.
  intros st face_name image im faces r st1 Hload Hdet Hrun.
  destruct (add_face_return_inv _ _ _ _ _ _ Hrun)
    as (im' & Hload' & _ & -> & Hmem & _ & Hfiles).
  assert (im' = im) as -> by congruence. rewrite Hdet in *.
  cbn [fst]. split; [reflexivity|]. split.
  { apply load_face_hit. rewrite Hmem. apply lookup_insert_eq. }
  rewrite load_face_miss by apply lookup_empty. cbn zeta.
  unfold backing_file, fresh_instance. cbn [py_str _face_embedding_folder files].
  change (path_join EMBEDDINGS_DIR (encode_path_safe face_name +:+ ".npz"))
    with (saved_file face_name).
  rewrite Hfiles, lookup_insert_eq. unfold saved_bytes.
  rewrite SerializerFacts.decode_encode, Face_of_FileWriteableFace_of.
  cbn. auto.
Qed.

(** C6, amended.  After two returning [add_face] calls with [save] for
    one name, [load_face] for the path-safe name gives the faces of the
    second call only, from RAM and from the file alike, and the file holds
    exactly the encoding of the second call's faces. *)
Theorem add_face_twice_overwrites :
  forall (st : Store) (face_name : string) (image1 image2 : ImageInput)
         (im2 : Image) (faces2 : list Face)
         (r1 r2 : string * list byte) (st1 st2 : Store),
    load_image image2 = Some im2 ->
    detect_faces im2 = faces2 ->
    add_face face_name image1 true st = (Return r1, st1) ->
    add_face face_name image2 true st1 = (Return r2, st2) ->
    load_face (Hashable (VStr (encode_path_safe face_name))) st2 = (Return faces2, st2)
    /\ files st2 !! saved_file face_name = Some (saved_bytes faces2)
    /\ fst (load_face (Hashable (VStr (encode_path_safe face_name)))
                      (fresh_instance EMBEDDINGS_DIR st2))
       = Return faces2.
Proof.
  intros st face_name image1 image2 im2 faces2 r1 r2 st1 st2 Hload Hdet _ Hrun.
  destruct (add_face_return_inv _ _ _ _ _ _ Hrun)
    as (im' & Hload' & _ & -> & Hmem & _ & Hfiles).
  assert (im' = im2) as -> by congruence. rewrite Hdet in *.
  split; [|split].
  - apply load_face_hit. rewrite Hmem. apply lookup_insert_eq.
  - rewrite Hfiles. apply lookup_insert_eq.
  - rewrite load_face_miss by apply lookup_empty. cbn zeta.
    unfold backing_file, fresh_instance. cbn [py_str _face_embedding_folder files].
    change (path_join EMBEDDINGS_DIR (encode_path_safe face_name +:+ ".npz"))
      with (saved_file face_name).
    rewrite Hfiles, lookup_insert_eq. unfold saved_bytes.
    rewrite SerializerFacts.decode_encode, Face_of_FileWriteableFace_of.
    reflexivity.
Qed.

(** *** Further properties of [add_face] *)

(** The console and the I/O trace of a returning [add_face] with [save]. *)
Lemma add_face_save_return_run (st : Store) (face_name : string) (image : ImageInput)
    (r : string * list byte) (st1 : Store) :
  add_face face_name image true st = (Return r, st1) ->
  io_trace st1 =
    io_trace st ++ [IoMakedirs EMBEDDINGS_DIR; IoIsFile (saved_file face_name);
                    IoOpenWrite (saved_file face_name);
                    IoWrite (saved_file face_name) (snd r)]
  /\ stdout st1 =
       stdout st ++ (if bool_decide (is_Some (files st !! saved_file face_name))
                     then [OverwriteNotice (encode_path_safe face_name)]
                     else []).
Proof.
  unfold saved_file, saved_bytes. unfold_method. unfold_monad.
  destruct (load_image image) as [im|]; [|discriminate].
  destruct (detect_faces im) as [|f fs] eqn:Hdet; [discriminate|].
  destruct (io_fails (IoMakedirs _)); [discriminate|].
  destruct (bool_decide _);
    cbn [_face_embeddings _face_embedding_folder files io_trace stdout];
    (destruct (io_fails (IoOpenWrite _)); [discriminate|]);
    cbn [_face_embeddings _face_embedding_folder files io_trace stdout];
    (destruct (io_fails (IoWrite _ _)); [discriminate|]);
    intros [= <- <-]; cbn; rewrite <- ?app_assoc, ?app_nil_r; auto.
Qed.

(** X1. Whatever [add_face] does (return, or raise at any point), it
    leaves the folder attribute alone, changes no dictionary entry other
    than the one of the path-safe name, and changes no file other than the
    one it saves to. *)
Theorem add_face_touches_one_entry_one_file :
  forall (st : Store) (face_name : string) (image : ImageInput) (save : bool),
    _face_embedding_folder (snd (add_face face_name image save st))
      = _face_embedding_folder st
    /\ (forall k, k <> VStr (encode_path_safe face_name) ->
          _face_embeddings (snd (add_face face_name image save st)) !! k
            = _face_embeddings st !! k)
    /\ (forall file, file <> saved_file face_name ->
          files (snd (add_face face_name image save st)) !! file
            = files st !! file).
Proof.
  intros st face_name image save.
  unfold saved_file. unfold_method. unfold_monad.
  destruct (load_image image) as [im|]; [|cbn; auto].
  destruct (detect_faces im) as [|f fs]; [cbn; auto|].
  destruct save; [|cbn; repeat split; auto; intros; now rewrite lookup_insert_ne].
  destruct (io_fails (IoMakedirs _));
    [cbn; repeat split; auto; intros; now rewrite lookup_insert_ne|].
  destruct (bool_decide _);
    cbn [_face_embeddings _face_embedding_folder files io_trace stdout];
    (destruct (io_fails (IoOpenWrite _));
     [cbn; repeat split; auto; intros; now rewrite lookup_insert_ne|]);
    cbn [_face_embeddings _face_embedding_folder files io_trace stdout];
    destruct (io_fails (IoWrite _ _)); cbn; repeat split; auto; intros;
    rewrite ?lookup_insert_ne by auto; reflexivity.
Qed.

(** X2. [add_face] without [save] does no I/O and leaves every file as it
    was; the faces are then served from RAM under the returned name, while
    a new instance over the directory, when there is no file of that name,
    does not find them. *)
Theorem add_face_without_save_stays_in_ram :
  forall (st : Store) (face_name : string) (image : ImageInput)
         (r : string * list byte) (st1 : Store),
    add_face face_name image false st = (Return r, st1) ->
    files st1 = files st
    /\ io_trace st1 = io_trace st
    /\ (exists faces, faces <> []
          /\ snd r = saved_bytes faces
          /\ load_face (Hashable (VStr (fst r))) st1 = (Return faces, st1))
    /\ (files st !! saved_file face_name = None ->
        fst (load_face (Hashable (VStr (fst r))) (fresh_instance EMBEDDINGS_DIR st1))
          = Raise (NotFoundError (fst r))).
Proof.
  intros st face_name image r st1 Hrun.
  destruct (add_face_return_inv _ _ _ _ _ _ Hrun)
    as (im & Hload & Hne & -> & Hmem & _ & Hfiles).
  cbn [fst snd]. split; [exact Hfiles|]. split.
  { revert Hrun. unfold_method. unfold_monad. rewrite Hload.
    destruct (detect_faces im); [discriminate|]. now intros [= <-]. }
  split.
  - exists (detect_faces im). repeat split; auto.
    apply load_face_hit. rewrite Hmem. apply lookup_insert_eq.
  - intros Habsent.
    rewrite load_face_miss by apply lookup_empty. cbn zeta.
    unfold backing_file, fresh_instance. cbn [py_str _face_embedding_folder files].
    change (path_join EMBEDDINGS_DIR (encode_path_safe face_name +:+ ".npz"))
      with (saved_file face_name).
    now rewrite Hfiles, Habsent.
Qed.

(** X3. A returning [add_face] with [save] performs exactly four I/O
    operations, in this order: create the directory, test for the file,
    open it, write it.  The file then holds exactly the bytes returned to
    the caller, and the overwrite notice is printed exactly when the file
    was there before. *)
Theorem add_face_save_io_sequence :
  forall (st : Store) (face_name : string) (image : ImageInput)
         (r : string * list byte) (st1 : Store),
    add_face face_name image true st = (Return r, st1) ->
    io_trace st1 =
      io_trace st ++ [IoMakedirs EMBEDDINGS_DIR; IoIsFile (saved_file face_name);
                      IoOpenWrite (saved_file face_name);
                      IoWrite (saved_file face_name) (snd r)]
    /\ files st1 !! saved_file face_name = Some (snd r)
    /\ stdout st1 =
         stdout st ++ (if bool_decide (is_Some (files st !! saved_file face_name))
                       then [OverwriteNotice (encode_path_safe face_name)]
                       else []).
Proof.
  intros st face_name image r st1 Hrun.
  destruct (add_face_save_return_run _ _ _ _ _ Hrun) as [Htrace Hout].
  destruct (add_face_return_inv _ _ _ _ _ _ Hrun)
    as (im & _ & _ & -> & _ & _ & Hfiles).
  repeat split; auto. rewrite Hfiles. apply lookup_insert_eq.
Qed.

(** X4. Every exception that leaves [add_face] has been printed by its
    [except] block just before: the last line on the console is the report
    of that very exception. *)
Theorem add_face_reports_what_it_raises :
  forall (st : Store) (face_name : string) (image : ImageInput) (save : bool)
         (e : exn),
    fst (add_face face_name image save st) = Raise e ->
    exists before,
      stdout (snd (add_face face_name image save st))
        = stdout st ++ before ++ [AddFaceError e]
      /\ (before = [] \/ before = [OverwriteNotice (encode_path_safe face_name)]).
Proof.
  intros st face_name image save e.
  unfold_method. unfold_monad.
  destruct (load_image image) as [im|];
    [|cbn; intros [= <-]; exists []; auto].
  destruct (detect_faces im) as [|f fs];
    [cbn; intros [= <-]; exists []; auto|].
  destruct save; [|cbn; discriminate].
  destruct (io_fails (IoMakedirs _));
    [cbn; intros [= <-]; exists []; auto|].
  destruct (bool_decide _);
    cbn [_face_embeddings _face_embedding_folder files io_trace stdout].
  - destruct (io_fails (IoOpenWrite _)).
    + cbn. intros [= <-]. exists [OverwriteNotice (encode_path_safe face_name)].
      split; [now rewrite <- app_assoc | auto].
    + cbn [_face_embeddings _face_embedding_folder files io_trace stdout].
      destruct (io_fails (IoWrite _ _)); [|cbn; discriminate].
      cbn. intros [= <-]. exists [OverwriteNotice (encode_path_safe face_name)].
      split; [now rewrite <- app_assoc | auto].
  - destruct (io_fails (IoOpenWrite _)).
    + cbn. intros [= <-]. exists []. auto.
    + cbn [_face_embeddings _face_embedding_folder files io_trace stdout].
      destruct (io_fails (IoWrite _ _)); [|cbn; discriminate].
      cbn. intros [= <-]. exists []. auto.
Qed.

(** *** Further properties of the loaders *)

(** X5. A name that is not in RAM and whose file holds a saved record is
    loaded with exactly one read: [load_face] returns the saved faces and
    stores them in the dictionary under the name it was asked for; files,
    folder and console stay as they were. *)
Theorem load_face_from_disk_caches :
  forall (st : Store) (face_name : pyval Obj) (faces : list Face),
    _face_embeddings st !! face_name = None ->
    files st !! backing_file st face_name = Some (saved_bytes faces) ->
    load_face (Hashable face_name) st =
      (Return faces,
       MkStore (<[face_name := faces]> (_face_embeddings st))
               (_face_embedding_folder st) (files st)
               (io_trace st ++ [IoRead (backing_file st face_name)])
               (stdout st)).
Proof.
  intros st face_name faces Hmem Hfile.
  rewrite (load_face_miss _ _ Hmem). cbn zeta. rewrite Hfile.
  unfold saved_bytes.
  now rewrite SerializerFacts.decode_encode, Face_of_FileWriteableFace_of.
Qed.

Lemma for_each_load_face_mono (face_names : list string) :
  forall (st : Store) r st',
    for_each_load_face face_names st = (r, st') ->
    forall k v, _face_embeddings st !! k = Some v ->
                _face_embeddings st' !! k = Some v.
Proof.
  induction face_names as [|face_name rest IH]; intros st r st' Hrun.
  - inversion Hrun; subst. auto.
  - rewrite for_each_load_face_cons in Hrun.
    destruct (load_face (Hashable (VStr face_name)) st) as [[a|e] st1] eqn:Hhead;
      destruct (load_face_frame _ _ _ _ Hhead) as (_ & _ & Hmono & _).
    + intros k v Hk. eapply IH; eauto.
    + inversion Hrun; subst. auto.
Qed.

Lemma load_all_faces_mono (st : Store) (k : pyval Obj) (v : list Face) :
  _face_embeddings st !! k = Some v ->
  _face_embeddings (snd (load_all_faces st)) !! k = Some v.
Proof.
  intros Hk. unfold_method. unfold_monad.
  destruct (for_each_load_face _ _) as [[[]|e] st1] eqn:Hloop; cbn;
    now apply (for_each_load_face_mono _ _ _ _ Hloop).
Qed.

(** X6. The loaders only ever add to the dictionary: an entry that is in
    RAM before [load_face], [load_faces] or [load_all_faces] is still there,
    with the same faces, afterwards, whether the call returns or raises. *)
Theorem load_operations_keep_cached_entries :
  forall (st : Store) (k : pyval Obj) (v : list Face),
    _face_embeddings st !! k = Some v ->
    (forall face_name,
        _face_embeddings (snd (load_face face_name st)) !! k = Some v)
    /\ (forall face_names,
        _face_embeddings (snd (load_faces face_names st)) !! k = Some v)
    /\ _face_embeddings (snd (load_all_faces st)) !! k = Some v.
Proof.
  intros st k v Hk.
  assert (forall face_name,
             _face_embeddings (snd (load_face face_name st)) !! k = Some v) as Hone.
  { intros face_name. destruct (load_face face_name st) as [r st'] eqn:Hrun.
    destruct (load_face_frame _ _ _ _ Hrun) as (_ & _ & Hmono & _). now apply Hmono. }
  assert (_face_embeddings (snd (load_all_faces st)) !! k = Some v) as Hall
    by now apply load_all_faces_mono.
  split; [exact Hone|]. split; [|exact Hall].
  intros [|s|l].
  - exact Hall.
  - rewrite load_faces_one. specialize (Hone (Hashable (VStr s))).
    now destruct (load_face (Hashable (VStr s)) st) as [[a|e] st1].
  - destruct (load_faces (ManyNames l) st) as [r st'] eqn:Hrun.
    destruct (load_faces_comprehension_frame _ _ _ _ _ _ Hrun) as [_ Hmono].
    now apply Hmono.
Qed.

Lemma glob_npz_run (folder : string) (st : Store) :
  glob_npz glob folder st =
    (Return (glob (folder +:+ "/*.npz") (files st)),
     MkStore (_face_embeddings st) (_face_embedding_folder st) (files st)
             (io_trace st ++ [IoGlob (folder +:+ "/*.npz")]) (stdout st)).
Proof. reflexivity. Qed.

Lemma startswith_slash_app (p suffix : string) :
  startswith p "/" = true -> startswith (p +:+ suffix) "/" = true.
Proof.
  destruct p as [|c p]; [discriminate|]. unfold startswith.
  change (String c p +:+ suffix) with (String c (p +:+ suffix)).
  cbn [strip_prefix]. now destruct (Ascii.eqb "/" c).
Qed.

(** An absolute path joined to the folder is that path: the folder is
    dropped. *)
Lemma backing_file_absolute (st : Store) (p : string) :
  startswith p "/" = true -> backing_file st (VStr p) = p +:+ ".npz".
Proof.
  intros Habs. unfold backing_file, path_join. cbn [py_str].
  now rewrite (startswith_slash_app p ".npz" Habs).
Qed.

(** X7. When [glob] lists no path for [<folder>/*.npz], [load_all_faces]
    returns the dictionary as it is: one [glob], no read, nothing
    loaded. *)
Theorem load_all_faces_nothing_to_load :
  forall (st : Store),
    glob (_face_embedding_folder st +:+ "/*.npz") (files st) = [] ->
    load_all_faces st =
      (Return (_face_embeddings st),
       MkStore (_face_embeddings st) (_face_embedding_folder st) (files st)
               (io_trace st ++ [IoGlob (_face_embedding_folder st +:+ "/*.npz")])
               (stdout st)).
Proof.
  intros st Hglob.
  unfold_method. unfold bind at 1 2. unfold embedding_folder at 1.
  rewrite glob_npz_run, Hglob. reflexivity.
Qed.

(** X8. [load_all_faces] hands each path that [glob] lists to [load_face]
    as if it were a face name.  So when the first path listed is not a key
    of the dictionary and names no file once joined to the folder with the
    suffix appended again, the call raises the not-found error for that
    path after one [glob] and one read, and loads nothing.  For an absolute
    path the file looked for is the path itself with the suffix doubled. *)
Theorem load_all_faces_raises_on_found_paths :
  forall (st : Store) (p : string) (rest : list string),
    glob (_face_embedding_folder st +:+ "/*.npz") (files st) = p :: rest ->
    _face_embeddings st !! VStr p = None ->
    files st !! backing_file st (VStr p) = None ->
    load_all_faces st =
      (Raise (NotFoundError p),
       MkStore (_face_embeddings st) (_face_embedding_folder st) (files st)
               (io_trace st ++ [IoGlob (_face_embedding_folder st +:+ "/*.npz");
                                IoRead (backing_file st (VStr p))])
               (stdout st))
    /\ (startswith p "/" = true -> backing_file st (VStr p) = p +:+ ".npz").
Proof.
  intros st p rest Hglob Hmem Hback.
  split; [|apply backing_file_absolute].
  unfold_method. unfold bind at 1 2. unfold embedding_folder at 1.
  rewrite glob_npz_run, Hglob.
  set (st1 := MkStore _ _ _ _ _).
  unfold bind. rewrite for_each_load_face_cons.
  rewrite (load_face_miss st1 (VStr p)) by exact Hmem. cbn zeta.
  change (files st1 !! backing_file st1 (VStr p))
    with (files st !! backing_file st (VStr p)).
  rewrite Hback. subst st1. cbn. now rewrite <- app_assoc.
Qed.

(** X9. Asking [load_faces] for one name as a string or as a one-element
    list is the same call: same result, same final state. *)
Theorem load_faces_string_is_singleton_list :
  forall (st : Store) (s : string),
    load_faces (OneName s) st = load_faces (ManyNames [Hashable (VStr s)]) st.
Proof.
  intros st s. rewrite load_faces_one.
  change (load_faces (ManyNames [Hashable (VStr s)]) st)
    with (load_faces_comprehension 0 [Hashable (VStr s)] ∅ st).
  rewrite load_faces_comprehension_cons.
  destruct (load_face (Hashable (VStr s)) st) as [[embedding|e] st1]; [|reflexivity].
  cbn [load_faces_comprehension result_key]. unfold ret.
  now rewrite insert_empty.
Qed.

Lemma result_keys_NoDup (i : nat) (face_names : list pyobject) :
  NoDup face_names -> NoDup (result_keys i face_names).
Proof.
  intros Hnodup. apply NoDup_alt. intros a b k Ha Hb.
  unfold result_keys in Ha, Hb. rewrite list_lookup_imap in Ha, Hb.
  destruct (face_names !! a) as [x|] eqn:Hx; [|discriminate].
  destruct (face_names !! b) as [y|] eqn:Hy; [|discriminate].
  cbn in Ha, Hb. injection Ha as Ha. injection Hb as Hb.
  destruct (decide (a = b)) as [|Hne]; [assumption|].
  assert (x = y) as <-.
  { apply (result_key_inj (i + a) (i + b)); [congruence | lia]. }
  exact (proj1 (NoDup_alt face_names) Hnodup a b x Hx Hy).
Qed.

Lemma size_list_to_set_length (l : list (pyval Obj)) :
  size (list_to_set l : gset (pyval Obj)) <= length l.
Proof.
  induction l as [|x l IH]; [reflexivity|].
  cbn [list_to_set foldr length]. rewrite size_union_alt, size_singleton.
  assert (size (list_to_set l ∖ {[x]} : gset (pyval Obj))
          <= size (list_to_set l : gset (pyval Obj)))
    by (apply subseteq_size; intros y [Hy _]%elem_of_difference; exact Hy).
  lia.
Qed.

(** X10. The dictionary [load_faces] returns for a list never has more
    entries than the list has elements, and has exactly as many when no
    element occurs twice. *)
Theorem load_faces_entry_count :
  forall (st : Store) (l : list pyobject) d st',
    load_faces (ManyNames l) st = (Return d, st') ->
    size d <= length l
    /\ (NoDup l -> size d = length l).
Proof.
  intros st l d st' Hrun.
  change (load_faces_comprehension 0 l ∅ st = (Return d, st')) in Hrun.
  destruct (load_faces_comprehension_return _ _ _ _ _ _ Hrun) as [Hentries Hother].
  assert (dom d = list_to_set (result_keys 0 l)) as Hdom.
  { apply set_eq. intros k. rewrite elem_of_dom, elem_of_list_to_set. split.
    - intros [v Hk].
      destruct (decide (k ∈ result_keys 0 l)) as [Hin|Hout]; [exact Hin|].
      rewrite (Hother _ Hout), lookup_empty in Hk. discriminate.
    - intros (j & face & Hj & ->)%elem_of_result_keys.
      destruct (Hentries _ _ Hj) as (key & v & _ & _ & Hd). eauto. }
  assert (length (result_keys 0 l) = length l) as Hlen
    by (unfold result_keys; apply length_imap).
  rewrite <- size_dom, Hdom. split.
  - rewrite <- Hlen. apply size_list_to_set_length.
  - intros Hnodup. rewrite <- Hlen.
    apply size_list_to_set, result_keys_NoDup, Hnodup.
Qed.

(** X11. A batch is not undone when it fails: if the lookups of a prefix
    of the list succeed and the next one raises, [load_faces] raises and
    every name of the prefix is left in RAM. *)
Theorem load_faces_failure_keeps_loaded :
  forall (st : Store) (pre post : list pyobject) (face : pyobject)
         d st1 e,
    load_faces (ManyNames pre) st = (Return d, st1) ->
    fst (load_face face st1) = Raise e ->
    fst (load_faces (ManyNames (pre ++ face :: post)) st) = Raise e
    /\ forall x, x ∈ pre ->
         exists key,
           x = Hashable key
           /\ is_Some (_face_embeddings
                         (snd (load_faces (ManyNames (pre ++ face :: post)) st))
                       !! key).
Proof.
  intros st pre post face d st1 e Hpre Hface.
  change (load_faces_comprehension 0 pre ∅ st = (Return d, st1)) in Hpre.
  change (load_faces (ManyNames (pre ++ face :: post)) st)
    with (load_faces_comprehension 0 (pre ++ face :: post) ∅ st).
  rewrite load_faces_comprehension_app, Hpre, load_faces_comprehension_cons.
  destruct (load_face face st1) as [[v|e'] st2] eqn:Hrun; cbn in Hface;
    [discriminate|]. injection Hface as ->.
  split; [reflexivity|]. cbn [snd].
  intros x (j & Hj)%list_elem_of_lookup.
  destruct (load_faces_comprehension_return _ _ _ _ _ _ Hpre) as [Hentries _].
  destruct (Hentries _ _ Hj) as (key & v & -> & Hmem & _).
  destruct (load_face_frame _ _ _ _ Hrun) as (_ & _ & Hmono & _).
  exists key. split; [reflexivity|]. exists v. now apply Hmono.
Qed.

(** X12. Two names with the same path-safe form share one entry and one
    file: after a saving [add_face] for each, the faces of the second call
    are what is in RAM under that form and what the file holds. *)
Theorem add_face_names_collide :
  forall (st : Store) (name1 name2 : string) (image1 image2 : ImageInput)
         (r1 r2 : string * list byte) (st1 st2 : Store),
    encode_path_safe name1 = encode_path_safe name2 ->
    add_face name1 image1 true st = (Return r1, st1) ->
    add_face name2 image2 true st1 = (Return r2, st2) ->
    fst r1 = fst r2
    /\ saved_file name1 = saved_file name2
    /\ files st2 !! saved_file name1 = Some (snd r2)
    /\ exists faces2,
         snd r2 = saved_bytes faces2
         /\ load_face (Hashable (VStr (fst r1))) st2 = (Return faces2, st2).
Proof.
  intros st name1 name2 image1 image2 r1 r2 st1 st2 Hsame Hrun1 Hrun2.
  destruct (add_face_return_inv _ _ _ _ _ _ Hrun1) as (im1 & _ & _ & -> & _).
  destruct (add_face_return_inv _ _ _ _ _ _ Hrun2)
    as (im2 & _ & _ & -> & Hmem & _ & Hfiles).
  assert (saved_file name1 = saved_file name2) as Hfile
    by (unfold saved_file; now rewrite Hsame).
  cbn [fst snd]. repeat split; auto.
  - rewrite Hfile, Hfiles. apply lookup_insert_eq.
  - exists (detect_faces im2). split; [reflexivity|].
    apply load_face_hit. rewrite Hmem, Hsame. apply lookup_insert_eq.
Qed.

(** X13. RAM and disk can drift apart: after a saving [add_face] and then
    one for the same name without [save], the instance serves the faces of
    the second call, the file still holds the bytes of the first, and a new
    instance over the directory loads the faces of the first. *)
Theorem add_face_unsaved_leaves_old_file :
  forall (st : Store) (face_name : string) (image1 image2 : ImageInput)
         (im1 im2 : Image) (r1 r2 : string * list byte) (st1 st2 : Store),
    load_image image1 = Some im1 ->
    load_image image2 = Some im2 ->
    add_face face_name image1 true st = (Return r1, st1) ->
    add_face face_name image2 false st1 = (Return r2, st2) ->
    load_face (Hashable (VStr (encode_path_safe face_name))) st2
      = (Return (detect_faces im2), st2)
    /\ files st2 !! saved_file face_name = Some (saved_bytes (detect_faces im1))
    /\ fst (load_face (Hashable (VStr (encode_path_safe face_name)))
                      (fresh_instance EMBEDDINGS_DIR st2))
       = Return (detect_faces im1).
Proof.
  intros st face_name image1 image2 im1 im2 r1 r2 st1 st2 Hload1 Hload2 Hrun1 Hrun2.
  destruct (add_face_return_inv _ _ _ _ _ _ Hrun1)
    as (im1' & Hload1' & _ & _ & _ & _ & Hfiles1).
  destruct (add_face_return_inv _ _ _ _ _ _ Hrun2)
    as (im2' & Hload2' & _ & _ & Hmem2 & _ & Hfiles2).
  assert (im1' = im1) as -> by congruence.
  assert (im2' = im2) as -> by congruence.
  assert (files st2 !! saved_file face_name = Some (saved_bytes (detect_faces im1)))
    as Hfile by (rewrite Hfiles2, Hfiles1; apply lookup_insert_eq).
  split; [|split; [exact Hfile|]].
  - apply load_face_hit. rewrite Hmem2. apply lookup_insert_eq.
  - rewrite load_face_miss by apply lookup_empty. cbn zeta.
    unfold backing_file, fresh_instance. cbn [py_str _face_embedding_folder files].
    change (path_join EMBEDDINGS_DIR (encode_path_safe face_name +:+ ".npz"))
      with (saved_file face_name).
    rewrite Hfile. unfold saved_bytes.
    now rewrite SerializerFacts.decode_encode, Face_of_FileWriteableFace_of.
Qed.

(** X14. A [load_face] that raises has stored nothing, whatever it
    raises: the dictionary is what it was before the call, and the name it
    was asked for was not in it. *)
Theorem load_face_failure_caches_nothing :
  forall (st : Store) (face_name : pyobject) (e : exn),
    fst (load_face face_name st) = Raise e ->
    _face_embeddings (snd (load_face face_name st)) = _face_embeddings st
    /\ forall key, face_name = Hashable key -> _face_embeddings st !! key = None.
Proof.
  intros st [face_name|u] e.
  2: { rewrite load_face_unhashable. split; [reflexivity | discriminate]. }
  destruct (_face_embeddings st !! face_name) as [embedding|] eqn:Hmem.
  - rewrite (load_face_hit _ _ _ Hmem). discriminate.
  - rewrite (load_face_miss _ _ Hmem). cbn zeta.
    destruct (files st !! _) as [bs|];
      [destruct (Serializer.decode bs) as [faces|]|]; cbn;
      intros [= <-]; (split; [reflexivity|]); intros key [= <-]; exact Hmem.
Qed.

(** X15. What [load_all_faces] returns is the dictionary itself as it is
    at the end of the call, so it holds every entry that was in RAM before,
    saved or not, besides what the call loaded. *)
Theorem load_all_faces_returns_whole_dictionary :
  forall (st : Store) d st',
    load_all_faces st = (Return d, st') ->
    d = _face_embeddings st'
    /\ forall k v, _face_embeddings st !! k = Some v -> d !! k = Some v.
Proof.
  intros st d st' Hrun.
  assert (d = _face_embeddings st') as ->.
  { revert Hrun. unfold_method. unfold_monad.
    destruct (for_each_load_face _ _) as [[[]|e] st1]; [|discriminate].
    now intros [= <- <-]. }
  split; [reflexivity|]. intros k v Hk.
  pose proof (load_all_faces_mono st k v Hk) as Hkeep.
  now rewrite Hrun in Hkeep.
Qed.

End FaceEmbeddingFacts.

(** ** Concrete runs *)

Section Runs.

Import Demo.

Abbreviation load_face := (load_face (Unh := Face) obj_str).
Abbreviation load_faces := (load_faces (Unh := Face) obj_str flat_glob).
Abbreviation load_all_faces := (load_all_faces (Unh := Face) obj_str flat_glob).
Abbreviation for_each_load_face := (for_each_load_face (Unh := Face) obj_str).

Lemma load_face_cache_hit_no_io_witness :
  load_face (Hashable (VStr "A")) store_cached = (Return facesA, store_cached)
  /\ (let st1 := snd (load_face (Hashable (VStr "A")) store_AB) in
      load_face (Hashable (VStr "A")) st1 = (Return facesA, st1)).
Proof.
  split.
  - apply (proj1 (load_face_cache_hit_no_io obj_str store_cached (VStr "A"))).
    vm_compute. reflexivity.
  - apply (proj2 (load_face_cache_hit_no_io obj_str store_AB (VStr "A"))).
    vm_compute. reflexivity.
Defined.

Lemma load_face_missing_raises_witness :
  fst (load_face (Hashable (VStr "unknown")) empty_store)
  = Raise (NotFoundError "unknown").
Proof.
  apply (load_face_missing_raises obj_str empty_store (VStr "unknown"));
    vm_compute; reflexivity.
Defined.

Lemma add_face_no_face_rejected_witness :
  fst (add_face_demo "A" [] true store_cached) = Raise (NoFaceDetectedError "a")
  /\ _face_embeddings (snd (add_face_demo "A" [] true store_cached))
     = _face_embeddings store_cached
  /\ files (snd (add_face_demo "A" [] true store_cached)) = files store_cached.
Proof.
  destruct (add_face_no_face_rejected load_image detect_faces slug EMBEDDINGS_DIR
              io_never_fails store_cached "A" [] [] true eq_refl eq_refl)
    as (Hraise & Hmem & Hfiles & _).
  exact (conj Hraise (conj Hmem Hfiles)).
Defined.

Lemma add_face_keeps_entry_on_io_failure_witness :
  _face_embeddings (snd (add_face_read_only "Bob" facesA true empty_store))
    !! VStr "bob" = Some facesA.
Proof.
  apply (add_face_keeps_entry_on_io_failure load_image detect_faces slug
           EMBEDDINGS_DIR io_read_only empty_store "Bob" facesA facesA).
  - reflexivity.
  - reflexivity.
  - discriminate.
  - right. left. reflexivity.
Defined.

Lemma add_face_then_load_face_witness :
  let st1 := snd (add_face_demo "Bob" facesA true empty_store) in
  load_face (Hashable (VStr "bob")) st1 = (Return facesA, st1)
  /\ fst (load_face (Hashable (VStr "bob")) (fresh_instance EMBEDDINGS_DIR st1))
     = Return facesA.
Proof.
  intros st1.
  destruct (add_face_then_load_face (Unh := Face) obj_str load_image detect_faces slug
              EMBEDDINGS_DIR io_never_fails empty_store "Bob" facesA facesA
              facesA ("bob", saved_bytes facesA) st1 eq_refl eq_refl)
    as (_ & Hram & Hdisk & _).
  - vm_compute. reflexivity.
  - exact (conj Hram Hdisk).
Defined.

Lemma add_face_twice_overwrites_witness :
  let st1 := snd (add_face_demo "Ann Lee" facesA true empty_store) in
  let st2 := snd (add_face_demo "Ann Lee" facesB true st1) in
  load_face (Hashable (VStr "ann-lee")) st2 = (Return facesB, st2)
  /\ files st2 !! "/embeddings/ann-lee.npz" = Some (saved_bytes facesB).
Proof.
  intros st1 st2.
  destruct (add_face_twice_overwrites (Unh := Face) obj_str load_image detect_faces slug
              EMBEDDINGS_DIR io_never_fails empty_store "Ann Lee" facesA facesB
              facesB facesB ("ann-lee", saved_bytes facesA)
              ("ann-lee", saved_bytes facesB) st1 st2 eq_refl eq_refl)
    as (Hram & Hfile & _).
  - vm_compute. reflexivity.
  - vm_compute. reflexivity.
  - exact (conj Hram Hfile).
Defined.


(** C1 as stated fails: ["Bob"] is stored and saved under ["bob"], so
    [load_face "Bob"] finds it neither in RAM nor, from a new instance
    over the same folder, on disk. *)
Lemma add_face_then_load_face_raw_name :
  let st1 := snd (add_face_demo "Bob" facesA true empty_store) in
  fst (add_face_demo "Bob" facesA true empty_store)
    = Return ("bob", saved_bytes facesA)
  /\ fst (load_face (Hashable (VStr "Bob")) st1) = Raise (NotFoundError "Bob")
  /\ fst (load_face (Hashable (VStr "Bob")) (fresh_instance EMBEDDINGS_DIR st1))
     = Raise (NotFoundError "Bob").
Proof. vm_compute. auto. Qed.

(** C6 as stated fails: after two saves for ["Ann Lee"] the second set of
    faces is not what [load_face "Ann Lee"] returns; the call raises. *)
Lemma add_face_twice_load_face_raw_name :
  let st1 := snd (add_face_demo "Ann Lee" facesA true empty_store) in
  let st2 := snd (add_face_demo "Ann Lee" facesB true st1) in
  fst (add_face_demo "Ann Lee" facesA true empty_store)
    = Return ("ann-lee", saved_bytes facesA)
  /\ fst (add_face_demo "Ann Lee" facesB true st1)
    = Return ("ann-lee", saved_bytes facesB)
  /\ fst (load_face (Hashable (VStr "Ann Lee")) st2) <> Return facesB
  /\ fst (load_face (Hashable (VStr "Ann Lee")) st2) = Raise (NotFoundError "Ann Lee").
Proof. vm_compute. repeat split; auto; discriminate. Qed.

(** C2. On a folder that holds the records of [A] and [B], with nothing
    in RAM, [load_all_faces] does not return: it hands the path that
    [glob] found to [load_face], which appends the suffix again, reads
    ["/embeddings/A.npz.npz"] and raises; the loop raises in the same way
    when the two paths come in the other order.  [load_face "A"] and
    [load_face "B"] on the same store return the faces of [A] and [B]. *)
Theorem load_all_faces_two_records :
  fst (load_all_faces store_AB) = Raise (NotFoundError "/embeddings/A.npz")
  /\ io_trace (snd (load_all_faces store_AB))
     = [IoGlob "/embeddings/*.npz"; IoRead "/embeddings/A.npz.npz"]
  /\ _face_embeddings (snd (load_all_faces store_AB)) = ∅
  /\ fst (for_each_load_face ["/embeddings/B.npz"; "/embeddings/A.npz"] store_AB)
     = Raise (NotFoundError "/embeddings/B.npz")
  /\ fst (load_face (Hashable (VStr "A")) store_AB) = Return facesA
  /\ fst (load_face (Hashable (VStr "B")) store_AB) = Return facesB.
Proof. vm_compute. repeat split. Qed.

End Runs.

(** ** Concrete runs of the further properties *)

Section MoreRuns.

Import Demo.

Abbreviation load_face := (load_face (Unh := Face) obj_str).
Abbreviation load_faces := (load_faces (Unh := Face) obj_str flat_glob).
Abbreviation load_all_faces := (load_all_faces (Unh := Face) obj_str flat_glob).
Abbreviation for_each_load_face := (for_each_load_face (Unh := Face) obj_str).

Lemma add_face_touches_one_entry_one_file_witness :
  _face_embeddings (snd (add_face_demo "Bob" facesB true store_cached)) !! VStr "A"
  = Some facesA.
Proof.
  unfold add_face_demo.
  rewrite (proj1 (proj2 (add_face_touches_one_entry_one_file load_image detect_faces
                           slug EMBEDDINGS_DIR io_never_fails store_cached
                           "Bob" facesB true)) (VStr "A")).
  - vm_compute. reflexivity.
  - intros Heq. vm_compute in Heq. discriminate.
Defined.

Lemma add_face_without_save_stays_in_ram_witness :
  let st1 := snd (add_face_demo "Bob" facesA false empty_store) in
  files st1 = files empty_store
  /\ fst (load_face (Hashable (VStr "bob")) (fresh_instance EMBEDDINGS_DIR st1))
     = Raise (NotFoundError "bob").
Proof.
  intros st1.
  destruct (add_face_without_save_stays_in_ram (Unh := Face) obj_str load_image detect_faces slug
              EMBEDDINGS_DIR io_never_fails empty_store "Bob" facesA
              ("bob", saved_bytes facesA) st1)
    as (Hfiles & _ & _ & Hfresh).
  - vm_compute. reflexivity.
  - split; [exact Hfiles|]. apply Hfresh. vm_compute. reflexivity.
Defined.

Lemma add_face_save_io_sequence_witness :
  let st1 := snd (add_face_demo "Bob" facesA true empty_store) in
  let st2 := snd (add_face_demo "Bob" facesB true st1) in
  io_trace st2 =
    io_trace st1 ++ [IoMakedirs "/embeddings"; IoIsFile "/embeddings/bob.npz";
                     IoOpenWrite "/embeddings/bob.npz";
                     IoWrite "/embeddings/bob.npz" (saved_bytes facesB)]
  /\ files st2 !! "/embeddings/bob.npz" = Some (saved_bytes facesB).
Proof.
  intros st1 st2.
  destruct (add_face_save_io_sequence load_image detect_faces slug
              EMBEDDINGS_DIR io_never_fails st1 "Bob" facesB
              ("bob", saved_bytes facesB) st2)
    as (Htrace & Hfile & _).
  - vm_compute. reflexivity.
  - exact (conj Htrace Hfile).
Defined.

Lemma add_face_reports_what_it_raises_witness :
  exists before,
    stdout (snd (add_face_read_only "Bob" facesA true empty_store))
    = stdout empty_store ++ before
        ++ [AddFaceError (IOFailure (IoOpenWrite "/embeddings/bob.npz"))]
    /\ (before = [] \/ before = [OverwriteNotice (slug "Bob")]).
Proof.
  apply (add_face_reports_what_it_raises load_image detect_faces slug
           EMBEDDINGS_DIR io_read_only empty_store "Bob" facesA true).
  vm_compute. reflexivity.
Defined.

Lemma load_face_from_disk_caches_witness :
  _face_embeddings (snd (load_face (Hashable (VStr "A")) store_AB)) !! VStr "A"
  = Some facesA.
Proof.
  rewrite (load_face_from_disk_caches obj_str store_AB (VStr "A") facesA).
  - apply lookup_insert_eq.
  - vm_compute. reflexivity.
  - vm_compute. reflexivity.
Defined.

Lemma load_operations_keep_cached_entries_witness :
  _face_embeddings (snd (load_all_faces store_cached)) !! VStr "A"
  = Some facesA.
Proof.
  apply (load_operations_keep_cached_entries (Unh := Face) obj_str flat_glob
           store_cached (VStr "A") facesA).
  vm_compute. reflexivity.
Defined.

Lemma load_all_faces_nothing_to_load_witness :
  fst (load_all_faces store_other) = Return ∅.
Proof.
  rewrite (load_all_faces_nothing_to_load (Unh := Face) obj_str flat_glob store_other);
    [reflexivity|].
  vm_compute. reflexivity.
Defined.

Lemma load_all_faces_raises_on_found_paths_witness :
  fst (load_all_faces store_AB) = Raise (NotFoundError "/embeddings/A.npz")
  /\ io_trace (snd (load_all_faces store_AB))
     = [IoGlob "/embeddings/*.npz"; IoRead "/embeddings/A.npz.npz"].
Proof.
  destruct (load_all_faces_raises_on_found_paths (Unh := Face) obj_str flat_glob
              store_AB "/embeddings/A.npz" ["/embeddings/B.npz"])
    as [Hrun Habsolute].
  - vm_compute. reflexivity.
  - vm_compute. reflexivity.
  - vm_compute. reflexivity.
  - rewrite Hrun, Habsolute by reflexivity. split; reflexivity.
Defined.

Lemma load_faces_entry_count_witness :
  size (returned (load_faces (ManyNames [Hashable (VStr "A"); Hashable (VStr "B")])
                             store_AB)) = 2.
Proof.
  apply (load_faces_entry_count (Unh := Face) obj_str flat_glob store_AB
           [Hashable (VStr "A"); Hashable (VStr "B")] _
           (snd (load_faces (ManyNames [Hashable (VStr "A"); Hashable (VStr "B")])
                            store_AB))).
  - vm_compute. reflexivity.
  - apply NoDup_cons. split; [|apply NoDup_singleton].
    intros Hin%list_elem_of_singleton. discriminate.
Defined.

Lemma load_faces_failure_keeps_loaded_witness :
  exists key,
    Hashable (Unh := Face) (VStr "A") = Hashable key
    /\ is_Some (_face_embeddings
                  (snd (load_faces (ManyNames ([Hashable (VStr "A")]
                                                 ++ Unhashable a_face
                                                 :: [Hashable (VStr "B")]))
                                   store_AB)) !! key).
Proof.
  eapply (load_faces_failure_keeps_loaded (Unh := Face) obj_str flat_glob store_AB
            [Hashable (VStr "A")] [Hashable (VStr "B")] (Unhashable a_face)).
  - vm_compute. reflexivity.
  - vm_compute. reflexivity.
  - apply list_elem_of_here.
Defined.

Lemma add_face_names_collide_witness :
  let st1 := snd (add_face_demo "Bob" facesA true empty_store) in
  let st2 := snd (add_face_demo "BOB" facesB true st1) in
  files st2 !! "/embeddings/bob.npz" = Some (saved_bytes facesB).
Proof.
  intros st1 st2.
  destruct (add_face_names_collide (Unh := Face) obj_str load_image detect_faces slug
              EMBEDDINGS_DIR io_never_fails empty_store "Bob" "BOB" facesA facesB
              ("bob", saved_bytes facesA) ("bob", saved_bytes facesB) st1 st2)
    as (_ & _ & Hfile & _).
  - vm_compute. reflexivity.
  - vm_compute. reflexivity.
  - vm_compute. reflexivity.
  - exact Hfile.
Defined.

Lemma add_face_unsaved_leaves_old_file_witness :
  let st1 := snd (add_face_demo "Bob" facesA true empty_store) in
  let st2 := snd (add_face_demo "Bob" facesB false st1) in
  load_face (Hashable (VStr "bob")) st2 = (Return facesB, st2)
  /\ fst (load_face (Hashable (VStr "bob")) (fresh_instance EMBEDDINGS_DIR st2))
     = Return facesA.
Proof.
  intros st1 st2.
  destruct (add_face_unsaved_leaves_old_file (Unh := Face) obj_str load_image detect_faces slug
              EMBEDDINGS_DIR io_never_fails empty_store "Bob" facesA facesB
              facesA facesB ("bob", saved_bytes facesA) ("bob", saved_bytes facesB)
              st1 st2 eq_refl eq_refl)
    as (Hram & _ & Hdisk).
  - vm_compute. reflexivity.
  - vm_compute. reflexivity.
  - exact (conj Hram Hdisk).
Defined.

Lemma load_face_failure_caches_nothing_witness :
  _face_embeddings (snd (load_face (Hashable (VStr "B")) store_cached))
  = _face_embeddings store_cached
  /\ _face_embeddings (snd (load_face (Unhashable a_face) store_cached))
     = _face_embeddings store_cached.
Proof.
  split.
  - apply (load_face_failure_caches_nothing (Unh := Face) obj_str store_cached
             (Hashable (VStr "B")) (NotFoundError "B")).
    vm_compute. reflexivity.
  - apply (load_face_failure_caches_nothing (Unh := Face) obj_str store_cached
             (Unhashable a_face) TypeError).
    vm_compute. reflexivity.
Defined.

Lemma load_all_faces_returns_whole_dictionary_witness :
  returned (load_all_faces store_cached) !! VStr "A" = Some facesA.
Proof.
  apply (load_all_faces_returns_whole_dictionary (Unh := Face) obj_str flat_glob
           store_cached (returned (load_all_faces store_cached))
           (snd (load_all_faces store_cached))).
  - vm_compute. reflexivity.
  - vm_compute. reflexivity.
Defined.

End MoreRuns.
